(** * gonpy: the fixture generator [example/testdata.py]

    A shallow embedding of the script that writes the [.npy] test
    fixtures, of the NumPy operations it calls ([np.dtype(..).str],
    [np.arange], [ndarray.reshape], [np.save] with format version 1.0 on
    a little-endian host) and of the part of the filesystem it touches
    ([pathlib.Path.mkdir], [open(.., "wb")]). *)

From Stdlib Require Import ZArith QArith_base Qreduction Ascii String DecimalString.
From Stdlib.Strings Require Import Byte.
From stdpp Require Import gmap strings list.

Local Open Scope Z_scope.

(** ** Element types *)

(** The entries of [dtype_list], in the order of the source. *)
Inductive dtype :=
  | int8 | int16 | int32 | int64
  | uint8 | uint16 | uint32 | uint64
  | float32 | float64
  | complex64 | complex128.

Global Instance dtype_eq_dec : EqDecision dtype.
Proof. solve_decision. Defined.

Definition dtype_list : list dtype :=
  [ int8; int16; int32; int64;
    uint8; uint16; uint32; uint64;
    float32; float64;
    complex64; complex128 ].

(** [np.dtype(d).kind] *)
Definition kind (d : dtype) : ascii :=
  match d with
  | int8 | int16 | int32 | int64 => "i"%char
  | uint8 | uint16 | uint32 | uint64 => "u"%char
  | float32 | float64 => "f"%char
  | complex64 | complex128 => "c"%char
  end.

(** [np.dtype(d).itemsize], in bytes *)
Definition itemsize (d : dtype) : nat :=
  match d with
  | int8 | uint8 => 1
  | int16 | uint16 => 2
  | int32 | uint32 | float32 => 4
  | int64 | uint64 | float64 | complex64 => 8
  | complex128 => 16
  end%nat.

(** [np.dtype(d).byteorder] as it shows in [.str] on a little-endian
    host: single-byte types have no byte order. *)
Definition byteorder (d : dtype) : ascii :=
  if (itemsize d =? 1)%nat then "|"%char else "<"%char.

(** Python's [str(n)] of a natural number. *)
Definition str_nat (n : nat) : string := NilZero.string_of_uint (Nat.to_uint n).

(** [np.dtype(d).str]: byte order, kind, item size. *)
Definition dtype_descr (d : dtype) : string :=
  String (byteorder d) (String (kind d) (str_nat (itemsize d))).

(** Python's slice [s[n:]] of a string. *)
Fixpoint slice_from (n : nat) (s : string) : string :=
  match n, s with
  | O, _ => s
  | S n', EmptyString => EmptyString
  | S n', String _ s' => slice_from n' s'
  end.

(** [dtype_str = np.dtype(dtype).str[1:]] *)
Definition dtype_str (d : dtype) : string := slice_from 1 (dtype_descr d).

(** ** Bytes and scalar encodings *)

Definition byte_of_Z (z : Z) : byte :=
  match Byte.of_N (Z.to_N (z mod 256)) with
  | Some b => b
  | None => x00
  end.

Definition Z_of_byte (b : byte) : Z := Z.of_N (Byte.to_N b).

(** Little-endian encoding of [z] modulo [2^(8n)] on [n] bytes. *)
Fixpoint le_bytes (n : nat) (z : Z) : list byte :=
  match n with
  | O => []
  | S n' => byte_of_Z z :: le_bytes n' (Z.shiftr z 8)
  end.

(** The unsigned integer a little-endian byte string stands for. *)
Fixpoint le_value (bs : list byte) : Z :=
  match bs with
  | [] => 0
  | b :: bs' => Z_of_byte b + 256 * le_value bs'
  end.

(** Two's complement reading on [w] bits of an unsigned [w]-bit value. *)
Definition to_signed (w : Z) (u : Z) : Z :=
  if u <? 2 ^ (w - 1) then u else u - 2 ^ w.

(** IEEE 754 binary interchange formats: exponent and fraction widths. *)
Record float_format := { ebits : Z; mbits : Z }.
Definition binary32 : float_format := {| ebits := 8; mbits := 23 |}.
Definition binary64 : float_format := {| ebits := 11; mbits := 52 |}.

Definition bias (f : float_format) : Z := 2 ^ (ebits f - 1) - 1.
Definition emax_field (f : float_format) : Z := 2 ^ ebits f - 1.

(** Bit pattern of the magnitude [n >= 0] converted to format [f] with
    round-to-nearest, ties-to-even (the C conversion of an integer to
    [float] or [double]); too large a magnitude gives infinity. *)
Definition float_bits_of_mag (f : float_format) (n : Z) : Z :=
  if n <=? 0 then 0
  else
    let e := Z.log2 n in
    let '(e, frac) :=
      if e <=? mbits f then (e, (n - 2 ^ e) * 2 ^ (mbits f - e))
      else
        let sh := e - mbits f in
        let q := Z.shiftr n sh in
        let r := n mod 2 ^ sh in
        let half := 2 ^ (sh - 1) in
        let up := (half <? r) || ((r =? half) && Z.odd q) in
        let q := if up then q + 1 else q in
        if q =? 2 ^ (mbits f + 1) then (e + 1, 0) else (e, q - 2 ^ mbits f) in
    if emax_field f <=? e + bias f then Z.shiftl (emax_field f) (mbits f)
    else Z.lor (Z.shiftl (e + bias f) (mbits f)) frac.

Definition float_bits_of_Z (f : float_format) (z : Z) : Z :=
  if z <? 0
  then Z.lor (Z.shiftl 1 (ebits f + mbits f)) (float_bits_of_mag f (- z))
  else float_bits_of_mag f z.

(** The number a floating-point datum stands for. *)
Inductive real_value :=
  | RFinite (q : Q)
  | RInf (negative : bool)
  | RNaN.

(** [m * 2^e] as a reduced fraction. *)
Definition dyadic (m e : Z) : Q :=
  Qred (if 0 <=? e then Qmake (m * 2 ^ e) 1 else Qmake m (Z.to_pos (2 ^ (- e)))).

Definition float_value (f : float_format) (bits : Z) : real_value :=
  let frac := Z.land bits (2 ^ mbits f - 1) in
  let e := Z.land (Z.shiftr bits (mbits f)) (emax_field f) in
  let neg := Z.testbit bits (ebits f + mbits f) in
  let sgn := if neg then -1 else 1 in
  if e =? emax_field f then (if frac =? 0 then RInf neg else RNaN)
  else if e =? 0 then RFinite (dyadic (sgn * frac) (1 - bias f - mbits f))
  else RFinite (dyadic (sgn * (2 ^ mbits f + frac)) (e - bias f - mbits f)).

(** An array element as a value. *)
Inductive scalar :=
  | IntVal (z : Z)
  | FloatVal (x : real_value)
  | ComplexVal (re im : real_value).

(** The integer [z] as a value of type [d]: what comparing an element
    with the Python integer [z] means. *)
Definition scalar_of_Z (d : dtype) (z : Z) : scalar :=
  match kind d with
  | "f"%char => FloatVal (RFinite (Qmake z 1))
  | "c"%char => ComplexVal (RFinite (Qmake z 1)) (RFinite (Qmake 0 1))
  | _ => IntVal z
  end.

Definition float_format_of (d : dtype) : float_format :=
  match d with
  | float32 | complex64 => binary32
  | _ => binary64
  end.

(** Storing the integer [z] into an element of type [d]: integers wrap
    around, floats are rounded, complex numbers get a zero imaginary
    part; the bytes are little-endian, a complex number is its real part
    followed by its imaginary part. *)
Definition store_Z (d : dtype) (z : Z) : list byte :=
  match kind d with
  | "f"%char => le_bytes (itemsize d) (float_bits_of_Z (float_format_of d) z)
  | "c"%char =>
      le_bytes (itemsize d / 2) (float_bits_of_Z (float_format_of d) z)
      ++ le_bytes (itemsize d / 2) (float_bits_of_Z (float_format_of d) 0)
  | _ => le_bytes (itemsize d) z
  end.

(** Reading an element of type [d] from its bytes. *)
Definition load (d : dtype) (bs : list byte) : scalar :=
  match kind d with
  | "f"%char => FloatVal (float_value (float_format_of d) (le_value bs))
  | "c"%char =>
      let h := (itemsize d / 2)%nat in
      ComplexVal (float_value (float_format_of d) (le_value (take h bs)))
                 (float_value (float_format_of d) (le_value (drop h bs)))
  | "u"%char => IntVal (le_value bs)
  | _ => IntVal (to_signed (8 * Z.of_nat (itemsize d)) (le_value bs))
  end.

(** ** The filesystem under the working directory *)

(** Python's [s.endswith(suffix)]. *)
Fixpoint endswith (s suffix : string) : bool :=
  if String.eqb s suffix then true
  else match s with
       | EmptyString => false
       | String _ s' => endswith s' suffix
       end.

Fixpoint has_slash (s : string) : bool :=
  match s with
  | EmptyString => false
  | String c s' => Ascii.eqb c "/" || has_slash s'
  end.

(** The directory part of a relative path: everything before the last
    ["/"]; the empty string stands for the working directory. *)
Fixpoint dirname (s : string) : string :=
  match s with
  | EmptyString => EmptyString
  | String c s' => if has_slash s' then String c (dirname s') else EmptyString
  end.

(** [pathlib]'s [p / name] for a relative [name]. *)
Definition joinpath (p name : string) : string := p +:+ "/" +:+ name.

(** A directory or a regular file, each with its write permission. *)
Inductive node :=
  | Dir (writable : bool)
  | File (writable : bool) (content : list byte).

Record filesystem := {
  cwd_writable : bool;
  nodes : gmap string node
}.

Inductive exception :=
  | FileExistsError
  | FileNotFoundError
  | NotADirectoryError
  | IsADirectoryError
  | PermissionError
  | ValueError.

Global Instance exception_eq_dec : EqDecision exception.
Proof. solve_decision. Defined.

(** A computation on the filesystem that returns a value or raises;
    what was written before the exception stays written. *)
Definition M (A : Type) : Type := filesystem → (exception + A) * filesystem.

Global Instance M_ret : MRet M := λ A x fs, (inr x, fs).

Global Instance M_bind : MBind M := λ A B f m fs,
  match m fs with
  | (inl e, fs') => (inl e, fs')
  | (inr x, fs') => f x fs'
  end.

Definition raise {A} (e : exception) : M A := λ fs, (inl e, fs).

Definition lift {A} (e : exception) (o : option A) : M A :=
  match o with Some x => mret x | None => raise e end.

(** [for x in xs: s = body(x, s)], the loop variable [s] threaded. *)
Fixpoint for_in {A S} (xs : list A) (body : A → S → M S) (s : S) : M S :=
  match xs with
  | [] => mret s
  | x :: xs' => s' ← body x s; for_in xs' body s'
  end.

(** Whether [p] is a directory, and then whether entries can be
    created in it. *)
Definition lookup_dir (fs : filesystem) (p : string) : option bool :=
  if String.eqb p "" then Some (cwd_writable fs)
  else match nodes fs !! p with
       | Some (Dir w) => Some w
       | _ => None
       end.

Definition is_dir (fs : filesystem) (p : string) : bool :=
  bool_decide (is_Some (lookup_dir fs p)).

Definition set_node (p : string) (n : node) (fs : filesystem) : filesystem :=
  {| cwd_writable := cwd_writable fs; nodes := <[p := n]> (nodes fs) |}.

(** The error of an operation under a path that is no directory. *)
Definition no_directory (fs : filesystem) (p : string) : exception :=
  match nodes fs !! p with
  | Some _ => NotADirectoryError
  | None => FileNotFoundError
  end.

(** [os.mkdir(p)] *)
Definition os_mkdir (p : string) : M () := λ fs,
  if String.eqb p "" then (inl FileNotFoundError, fs)
  else match lookup_dir fs (dirname p) with
       | None => (inl (no_directory fs (dirname p)), fs)
       | Some w =>
           match nodes fs !! p with
           | Some _ => (inl FileExistsError, fs)
           | None =>
               if w then (inr (), set_node p (Dir true) fs)
               else (inl PermissionError, fs)
           end
       end.

(** [pathlib.Path(p).mkdir(exist_ok=exist_ok)], with [parents=False]:
    [FileNotFoundError] is raised again; any other [OSError] is
    swallowed when [exist_ok] holds and the path is a directory. *)
Definition Path_mkdir (p : string) (exist_ok : bool) : M () := λ fs,
  match os_mkdir p fs with
  | (inr u, fs') => (inr u, fs')
  | (inl FileNotFoundError, fs') => (inl FileNotFoundError, fs')
  | (inl e, fs') =>
      if negb exist_ok || negb (is_dir fs' p) then (inl e, fs')
      else (inr (), fs')
  end.

(** [with open(p, "wb") as fid: fid.write(content)] *)
Definition write_file (p : string) (content : list byte) : M () := λ fs,
  if String.eqb p "" then (inl FileNotFoundError, fs)
  else match lookup_dir fs (dirname p) with
       | None => (inl (no_directory fs (dirname p)), fs)
       | Some w =>
           match nodes fs !! p with
           | Some (Dir _) => (inl IsADirectoryError, fs)
           | Some (File wf _) =>
               if wf then (inr (), set_node p (File true content) fs)
               else (inl PermissionError, fs)
           | None =>
               if w then (inr (), set_node p (File true content) fs)
               else (inl PermissionError, fs)
           end
       end.

(** ** The NumPy operations the script calls *)

Module np.

(** The [order] argument: ["C"] is row-major, ["F"] column-major. *)
Inductive order := C | F.

Global Instance order_eq_dec : EqDecision order.
Proof. solve_decision. Defined.

(** An array: element type, shape, strides in bytes and the buffer the
    strides index into. *)
Record ndarray := {
  dtype_of : dtype;
  shape : list nat;
  strides : list Z;
  data : list byte
}.

(** [a.size] *)
Definition size_of (s : list nat) : nat := foldr Nat.mul 1%nat s.

(** Strides of a freshly allocated array of shape [s]: the first axis
    varies fastest in Fortran order, the last one in C order. *)
Fixpoint f_strides (sz : Z) (s : list nat) : list Z :=
  match s with
  | [] => []
  | n :: s' => sz :: f_strides (if (n =? 0)%nat then sz else sz * Z.of_nat n) s'
  end.

Definition c_strides (sz : Z) (s : list nat) : list Z :=
  reverse (f_strides sz (reverse s)).

Definition strides_for (o : order) (sz : Z) (s : list nat) : list Z :=
  match o with C => c_strides sz s | F => f_strides sz s end.

(** All the indices of an array of shape [s], last axis fastest. *)
Fixpoint indices_C (s : list nat) : list (list nat) :=
  match s with
  | [] => [[]]
  | n :: s' => i ← seq 0 n; (i ::.) <$> indices_C s'
  end.

(** The indices in the iteration order [o]. *)
Definition indices (o : order) (s : list nat) : list (list nat) :=
  match o with
  | C => indices_C s
  | F => reverse <$> indices_C (reverse s)
  end.

Definition offset (st : list Z) (idx : list nat) : Z :=
  foldr Z.add 0 (zip_with (λ i s, Z.of_nat i * s) idx st).

(** The bytes of the element at index [idx]. *)
Definition item_bytes (a : ndarray) (idx : list nat) : list byte :=
  take (itemsize (dtype_of a)) (drop (Z.to_nat (offset (strides a) idx)) (data a)).

Definition in_bounds (s : list nat) (idx : list nat) : bool :=
  bool_decide (length idx = length s) && forallb id (zip_with Nat.ltb idx s).

(** [a[i, j, ..]] with non-negative indices; [None] is [IndexError]. *)
Definition getitem (a : ndarray) (idx : list nat) : option scalar :=
  if in_bounds (shape a) idx then Some (load (dtype_of a) (item_bytes a idx)) else None.

(** The elements in row-major iteration order, as [a.flat] gives them. *)
Definition flat (a : ndarray) : list scalar :=
  (λ idx, load (dtype_of a) (item_bytes a idx)) <$> indices_C (shape a).

(** [np.arange(n, dtype=d)] *)
Definition arange (n : nat) (d : dtype) : ndarray :=
  {| dtype_of := d;
     shape := [n];
     strides := [Z.of_nat (itemsize d)];
     data := k ← seq 0 n; store_Z d (Z.of_nat k) |}.

(** [a.reshape(s, order=o)]: the elements are read in the order [o]
    and placed in the new shape in the order [o]; [None] is the
    [ValueError] of a shape of another size. *)
Definition reshape (a : ndarray) (s : list nat) (o : order) : option ndarray :=
  if bool_decide (size_of s = size_of (shape a)) then
    Some {| dtype_of := dtype_of a;
            shape := s;
            strides := strides_for o (Z.of_nat (itemsize (dtype_of a))) s;
            data := idx ← indices o (shape a); item_bytes a idx |}
  else None.

(** [a.T] *)
Definition transpose (a : ndarray) : ndarray :=
  {| dtype_of := dtype_of a;
     shape := reverse (shape a);
     strides := reverse (strides a);
     data := data a |}.

(** The contiguity flags, as NumPy recomputes them from the shape and
    the strides: axes of length 1 do not count, an empty array is
    contiguous both ways. [dims] lists the axes fastest first. *)
Fixpoint contiguous_from (sd : Z) (dims : list (nat * Z)) : bool :=
  match dims with
  | [] => true
  | (n, st) :: rest =>
      if (n =? 1)%nat then contiguous_from sd rest
      else (st =? sd) && contiguous_from (sd * Z.of_nat n) rest
  end.

Definition c_contiguous (a : ndarray) : bool :=
  existsb (Nat.eqb 0) (shape a)
  || contiguous_from (Z.of_nat (itemsize (dtype_of a))) (reverse (zip (shape a) (strides a))).

Definition f_contiguous (a : ndarray) : bool :=
  existsb (Nat.eqb 0) (shape a)
  || contiguous_from (Z.of_nat (itemsize (dtype_of a))) (zip (shape a) (strides a)).

(** [a.tobytes("C")] *)
Definition tobytes (a : ndarray) : list byte :=
  idx ← indices_C (shape a); item_bytes a idx.

(** *** [numpy.lib.format], version 1.0 *)

Definition MAGIC_PREFIX : list byte := x93 :: list_byte_of_string "NUMPY".
Definition MAGIC_LEN : nat := (length MAGIC_PREFIX + 2)%nat.
Definition ARRAY_ALIGN : nat := 64.
Definition GROWTH_AXIS_MAX_DIGITS : nat := 21.

Definition magic (major minor : Z) : list byte :=
  MAGIC_PREFIX ++ [byte_of_Z major; byte_of_Z minor].

(** Python's [repr] of a [bool] and of a tuple of integers. *)
Definition repr_bool (b : bool) : string := if b then "True" else "False".

Fixpoint join (sep : string) (l : list string) : string :=
  match l with
  | [] => ""
  | [x] => x
  | x :: l' => x +:+ sep +:+ join sep l'
  end.

Definition repr_tuple (s : list nat) : string :=
  match s with
  | [n] => "(" +:+ str_nat n +:+ ",)"
  | _ => "(" +:+ join ", " (str_nat <$> s) +:+ ")"
  end.

(** [header_data_from_array_1_0]: the entries [descr], [fortran_order]
    and [shape] of the header dictionary. *)
Definition header_data_from_array_1_0 (a : ndarray) : string * bool * list nat :=
  (dtype_descr (dtype_of a),
   (if c_contiguous a then false else if f_contiguous a then true else false),
   shape a).

Definition spaces (n : nat) : string := String.concat "" (replicate n " ").

(** The header text [_write_array_header] builds: the dictionary
    literal with its keys sorted, then the spare room for a growing
    axis. *)
Definition header_text (d : string * bool * list nat) : string :=
  let '(descr, fortran_order, shp) := d in
  let growth_axis := if fortran_order then last shp else head shp in
  "{'descr': '" +:+ descr +:+ "', 'fortran_order': " +:+ repr_bool fortran_order
    +:+ ", 'shape': " +:+ repr_tuple shp +:+ ", }"
    +:+ match growth_axis with
        | Some n => spaces (GROWTH_AXIS_MAX_DIGITS - String.length (str_nat n))
        | None => ""
        end.

(** [_wrap_header]: magic, header length on [lenbytes] bytes, header
    padded with spaces up to a final newline on a multiple of
    [ARRAY_ALIGN]. *)
Definition wrap_header (header : string) (major : Z) (lenbytes : nat) : list byte :=
  let hlen := (String.length header + 1)%nat in
  let padlen := (ARRAY_ALIGN - ((MAGIC_LEN + lenbytes + hlen) mod ARRAY_ALIGN))%nat in
  magic major 0 ++ le_bytes lenbytes (Z.of_nat (hlen + padlen))
    ++ list_byte_of_string header ++ list_byte_of_string (spaces padlen) ++ [x0a].

(** [_wrap_header_guess_version]: version 1.0 unless the length does
    not fit its two bytes. *)
Definition wrap_header_guess_version (header : string) : list byte :=
  let hlen := (String.length header + 1)%nat in
  let padlen := (ARRAY_ALIGN - ((MAGIC_LEN + 2 + hlen) mod ARRAY_ALIGN))%nat in
  if Z.of_nat (hlen + padlen) <? 65536 then wrap_header header 1 2
  else wrap_header header 2 4.

Definition header_bytes (a : ndarray) : list byte :=
  wrap_header_guess_version (header_text (header_data_from_array_1_0 a)).

(** What [write_array] writes after the header: the elements in
    Fortran order for an array that is Fortran- and not C-contiguous
    ([a.T.tofile]), in C order otherwise. *)
Definition payload (a : ndarray) : list byte :=
  if f_contiguous a && negb (c_contiguous a) then tobytes (transpose a)
  else tobytes a.

Definition write_array (a : ndarray) : list byte := header_bytes a ++ payload a.

(** [np.save(file, arr)]: the file name gets the suffix [.npy] unless
    it has it. *)
Definition save (file : string) (arr : ndarray) : M () :=
  let file := if endswith file ".npy" then file else file +:+ ".npy" in
  write_file file (write_array arr).

End np.

(** ** The script *)

Definition output_dir : string := "data".

(** Lines 30 to 34: the base array, reshaped when [dims == 2]. *)
Definition build_data (dtype : dtype) (dims : nat) (order : np.order) : option np.ndarray :=
  let data := np.arange 8 dtype in
  if (dims =? 2)%nat then np.reshape data [4; 2]%nat order
  else Some data.

(** The body of the innermost loop; it returns the new [ii]. *)
Definition iteration (dtype : dtype) (dtype_str : string) (dims : nat)
    (order : np.order) (ii : nat) : M nat :=
  data ← lift ValueError (build_data dtype dims order);
  let fname := joinpath output_dir (dtype_str +:+ "_" +:+ str_nat ii +:+ ".npy") in
  np.save fname data;;
  mret (ii + 1)%nat.

(** The body of the loop over [dtype_list]. *)
Definition per_dtype (dtype : dtype) (_ : ()) : M () :=
  let ii := 1%nat in
  let dtype_str := slice_from 1 (dtype_descr dtype) in
  for_in [1; 2]%nat (λ dims ii,
    for_in [np.C; np.F] (λ order ii,
      iteration dtype dtype_str dims order ii) ii) ii;;
  mret ().

(** The whole module, run from top to bottom. *)
Definition main : M () :=
  Path_mkdir output_dir true;;
  for_in dtype_list per_dtype ().

Definition empty_fs : filesystem := {| cwd_writable := true; nodes := ∅ |}.

(** ** The writes of a run, listed *)

(** The array of one pass of the inner loops. *)
Definition fixture (d : dtype) (dims : nat) (o : np.order) : np.ndarray :=
  match build_data d dims o with
  | Some a => a
  | None => np.arange 8 d
  end.

(** The name of the [k]-th file of a type. *)
Definition fixture_name (d : dtype) (k : nat) : string :=
  joinpath output_dir (dtype_str d +:+ "_" +:+ str_nat k +:+ ".npy").

(** Writing a list of files, one after the other. *)
Fixpoint write_all (l : list (string * list byte)) : M () :=
  match l with
  | [] => mret ()
  | (p, b) :: l' => write_file p b;; write_all l'
  end.

Definition plan_of (d : dtype) : list (string * list byte) :=
  [ (fixture_name d 1, np.write_array (fixture d 1 np.C));
    (fixture_name d 2, np.write_array (fixture d 1 np.F));
    (fixture_name d 3, np.write_array (fixture d 2 np.C));
    (fixture_name d 4, np.write_array (fixture d 2 np.F)) ].

Definition plan : list (string * list byte) := d ← dtype_list; plan_of d.

(** The files a run writes, by name. *)
Definition fixture_names : list string :=
  d ← dtype_list; k ← [1; 2; 3; 4]%nat; [fixture_name d k].

(** The rows of a two-dimensional array, as [a.tolist()] gives them. *)
Definition rows (a : np.ndarray) : list (list scalar) :=
  match np.shape a with
  | [r; c] =>
      (λ i, (λ j, load (np.dtype_of a) (np.item_bytes a [i; j])) <$> seq 0 c) <$> seq 0 r
  | _ => []
  end.

Global Instance Q_eq_dec : EqDecision Q.
Proof. solve_decision. Defined.
Global Instance real_value_eq_dec : EqDecision real_value.
Proof. solve_decision. Defined.
Global Instance scalar_eq_dec : EqDecision scalar.
Proof. solve_decision. Defined.

(** The directory cannot be created when the name is taken by a regular
    file or the working directory is read-only. *)
Definition mkdir_blocked (fs : filesystem) : option exception :=
  match nodes fs !! output_dir with
  | Some (File _ _) => Some FileExistsError
  | Some (Dir _) => None
  | None => if cwd_writable fs then None else Some PermissionError
  end.

(** Whether [open(p, "wb")] goes through for a path [p] in a directory
    of write permission [dir_w]: a file there must be writable, a
    missing one needs the permission of the directory, a directory is
    in the way. *)
Definition writable_target (fs : filesystem) (dir_w : bool) (p : string) : bool :=
  match nodes fs !! p with
  | Some (File w _) => w
  | Some (Dir _) => false
  | None => dir_w
  end.

(** The filesystems on which a run goes through. *)
Definition run_can_succeed (fs : filesystem) : bool :=
  match nodes fs !! output_dir with
  | Some (Dir w) => forallb (writable_target fs w) fixture_names
  | Some (File _ _) => false
  | None => cwd_writable fs && forallb (writable_target fs true) fixture_names
  end.

(** ** Strings and paths *)

Lemma endswith_refl s : endswith s s = true.
Proof. destruct s; simpl; [done|]. by rewrite Ascii.eqb_refl, String.eqb_refl. Qed.

Lemma endswith_app s suffix : endswith (s +:+ suffix) suffix = true.
Proof.
  induction s as [|c s IH].
  - apply endswith_refl.
  - change (String c s +:+ suffix) with (String c (s +:+ suffix)).
    cbn [endswith]. rewrite IH.
    by destruct (String.eqb (String c (s +:+ suffix)) suffix).
Qed.

Lemma string_app_assoc (s1 s2 s3 : string) : (s1 +:+ s2) +:+ s3 = s1 +:+ (s2 +:+ s3).
Proof.
  induction s1 as [|c s1 IH]; [done|].
  change (String c ((s1 +:+ s2) +:+ s3) = String c (s1 +:+ (s2 +:+ s3))).
  by rewrite IH.
Qed.

Lemma fixture_name_npy d k : endswith (fixture_name d k) ".npy" = true.
Proof.
  unfold fixture_name, joinpath.
  rewrite <- !string_app_assoc. apply endswith_app.
Qed.

(** ** The loops *)

Lemma build_data_fixture d dims o : build_data d dims o = Some (fixture d dims o).
Proof.
  unfold fixture, build_data. destruct (dims =? 2)%nat; [|done].
  unfold np.reshape. by rewrite bool_decide_eq_true_2.
Qed.

Lemma bind_eq {A B} (m : M A) (f : A → M B) fs :
  (m ≫= f) fs = match m fs with
                | (inl e, fs') => (inl e, fs')
                | (inr x, fs') => f x fs'
                end.
Proof. reflexivity. Qed.

Lemma iteration_eq d dims o ii fs :
  iteration d (dtype_str d) dims o ii fs =
  match write_file (fixture_name d ii) (np.write_array (fixture d dims o)) fs with
  | (inl e, fs') => (inl e, fs')
  | (inr _, fs') => (inr (ii + 1)%nat, fs')
  end.
Proof.
  unfold iteration. rewrite build_data_fixture, bind_eq. simpl lift.
  unfold mret at 1, M_ret at 1. rewrite bind_eq.
  unfold np.save. fold (fixture_name d ii). rewrite fixture_name_npy.
  by destruct (write_file _ _ fs) as [[e|[]] fs'].
Qed.

Lemma per_dtype_eq d u fs : per_dtype d u fs = write_all (plan_of d) fs.
Proof.
  unfold per_dtype. fold (dtype_str d). unfold plan_of, write_all.
  cbn [for_in]. rewrite !bind_eq, iteration_eq.
  destruct (write_file _ _ fs) as [[e|[]] fs1]; [done|].
  rewrite !bind_eq, iteration_eq.
  destruct (write_file _ _ fs1) as [[e|[]] fs2]; [done|].
  cbn [mret M_ret]. rewrite !bind_eq, iteration_eq.
  destruct (write_file _ _ fs2) as [[e|[]] fs3]; [done|].
  rewrite !bind_eq, iteration_eq.
  by destruct (write_file _ _ fs3) as [[e|[]] fs4].
Qed.

Lemma write_all_app l1 l2 fs :
  write_all (l1 ++ l2) fs = (write_all l1;; write_all l2) fs.
Proof.
  revert fs. induction l1 as [|[p b] l1 IH]; intros fs; [done|].
  cbn [app write_all]. rewrite !bind_eq.
  destruct (write_file p b fs) as [[e|[]] fs1]; [done|].
  by rewrite IH, bind_eq.
Qed.

Lemma for_in_per_dtype ds fs :
  for_in ds per_dtype () fs = write_all (d ← ds; plan_of d) fs.
Proof.
  revert fs. induction ds as [|d ds IH]; intros fs; [done|].
  cbn [for_in mbind list_bind]. rewrite write_all_app, !bind_eq, per_dtype_eq.
  destruct (write_all (plan_of d) fs) as [[e|[]] fs1]; [done|]. apply IH.
Qed.

Lemma main_eq fs :
  main fs = match Path_mkdir output_dir true fs with
            | (inl e, fs') => (inl e, fs')
            | (inr _, fs') => write_all plan fs'
            end.
Proof.
  unfold main. rewrite bind_eq.
  destruct (Path_mkdir output_dir true fs) as [[e|[]] fs1]; [done|].
  apply for_in_per_dtype.
Qed.

(** ** Writing files *)

Lemma set_node_id p n fs : nodes fs !! p = Some n → set_node p n fs = fs.
Proof.
  intros Hp. destruct fs as [w m]. unfold set_node. simpl in *.
  by rewrite insert_id.
Qed.

(** A write either replaces the node by a writable file or raises and
    leaves the filesystem as it was. *)
Lemma write_file_cases p b fs :
  write_file p b fs = (inr (), set_node p (File true b) fs)
  ∨ ∃ e, write_file p b fs = (inl e, fs).
Proof.
  unfold write_file. destruct (String.eqb p ""); [eauto|].
  destruct (lookup_dir fs (dirname p)) as [w|]; [|eauto].
  destruct (nodes fs !! p) as [[w'|[] c]|]; eauto.
  destruct w; eauto.
Qed.

Lemma write_file_ok p b fs fs' :
  write_file p b fs = (inr (), fs') → fs' = set_node p (File true b) fs.
Proof. destruct (write_file_cases p b fs) as [H|[e H]]; rewrite H; congruence. Qed.

Lemma write_file_err p b fs fs' e :
  write_file p b fs = (inl e, fs') → fs' = fs.
Proof. destruct (write_file_cases p b fs) as [H|[e' H]]; rewrite H; congruence. Qed.

(** Rewriting a writable file with the content it has changes nothing. *)
Lemma write_file_same p b fs w :
  p ≠ "" → lookup_dir fs (dirname p) = Some w →
  nodes fs !! p = Some (File true b) →
  write_file p b fs = (inr (), fs).
Proof.
  intros Hp Hd Hn. unfold write_file.
  destruct (String.eqb_spec p ""); [done|].
  rewrite Hd, Hn. by rewrite set_node_id.
Qed.

Lemma write_all_cons p b l fs :
  write_all ((p, b) :: l) fs =
  match write_file p b fs with
  | (inl e, fs') => (inl e, fs')
  | (inr _, fs') => write_all l fs'
  end.
Proof. reflexivity. Qed.

(** After the writes of [l] went through, a path named in [l] holds what
    [l] says and every other path is as before. *)
Lemma write_all_lookup l fs fs' :
  NoDup l.*1 → write_all l fs = (inr (), fs') →
  cwd_writable fs' = cwd_writable fs ∧
  ∀ q, nodes fs' !! q =
       match (list_to_map l : gmap string (list byte)) !! q with
       | Some b => Some (File true b)
       | None => nodes fs !! q
       end.
Proof.
  revert fs. induction l as [|[p b] l IH]; intros fs Hnd Hrun.
  - injection Hrun as <-. split; [done|]. intros q. simpl. by rewrite lookup_empty.
  - rewrite write_all_cons in Hrun.
    destruct (write_file p b fs) as [[e|[]] fs1] eqn:Hw; [done|].
    apply write_file_ok in Hw as ->.
    rewrite fmap_cons, NoDup_cons in Hnd. destruct Hnd as [Hp Hnd].
    destruct (IH _ Hnd Hrun) as [Hcwd Hq]. split; [done|].
    intros q. rewrite Hq, list_to_map_cons.
    destruct (decide (p = q)) as [<-|Hne].
    + rewrite lookup_insert_eq, (not_elem_of_list_to_map_1 _ p Hp).
      apply lookup_insert_eq.
    + rewrite (lookup_insert_ne _ p q) by done.
      destruct (list_to_map l !! q); [done|]. by apply lookup_insert_ne.
Qed.

(** A failing sequence of writes stops at the first write that raises,
    with the writes before it done. *)
Lemma write_all_fails l fs fs' e :
  write_all l fs = (inl e, fs') →
  ∃ l1 p b l2, l = l1 ++ (p, b) :: l2
    ∧ write_all l1 fs = (inr (), fs')
    ∧ write_file p b fs' = (inl e, fs').
Proof.
  revert fs. induction l as [|[p b] l IH]; intros fs Hrun; [done|].
  rewrite write_all_cons in Hrun.
  destruct (write_file p b fs) as [[e'|[]] fs1] eqn:Hw.
  - injection Hrun as -> ->. exists [], p, b, l.
    by rewrite (write_file_err _ _ _ _ _ Hw) in Hw |- *.
  - destruct (IH _ Hrun) as (l1 & p' & b' & l2 & -> & H1 & H2).
    exists ((p, b) :: l1), p', b', l2. split; [done|].
    by rewrite write_all_cons, Hw.
Qed.

(** Writing once more what is there already goes through and changes
    nothing. *)
Lemma write_all_same l fs :
  (∀ p b, (p, b) ∈ l →
     p ≠ "" ∧ is_Some (lookup_dir fs (dirname p)) ∧ nodes fs !! p = Some (File true b)) →
  write_all l fs = (inr (), fs).
Proof.
  induction l as [|[p b] l IH]; intros Hl; [done|].
  destruct (Hl p b) as (Hp & [w Hd] & Hn); [left|].
  rewrite write_all_cons, (write_file_same _ _ _ _ Hp Hd Hn).
  apply IH. intros p' b' Hin. apply Hl. by right.
Qed.

(** ** Creating the output directory *)

Lemma os_mkdir_output_dir fs :
  os_mkdir output_dir fs =
  match nodes fs !! output_dir with
  | Some _ => (inl FileExistsError, fs)
  | None =>
      if cwd_writable fs then (inr (), set_node output_dir (Dir true) fs)
      else (inl PermissionError, fs)
  end.
Proof. reflexivity. Qed.

Lemma is_dir_output_dir fs :
  is_dir fs output_dir =
  match nodes fs !! output_dir with Some (Dir _) => true | _ => false end.
Proof.
  unfold is_dir, lookup_dir. simpl.
  destruct (nodes fs !! output_dir) as [[w|w c]|].
  - by apply bool_decide_eq_true_2.
  - apply bool_decide_eq_false_2. by intros [? ?].
  - apply bool_decide_eq_false_2. by intros [? ?].
Qed.

Lemma Path_mkdir_cases fs :
  Path_mkdir output_dir true fs =
  match mkdir_blocked fs with
  | Some e => (inl e, fs)
  | None =>
      (inr (), match nodes fs !! output_dir with
               | Some _ => fs
               | None => set_node output_dir (Dir true) fs
               end)
  end.
Proof.
  unfold Path_mkdir, mkdir_blocked. rewrite os_mkdir_output_dir.
  destruct (nodes fs !! output_dir) as [[w|w c]|] eqn:Hn.
  - simpl. by rewrite is_dir_output_dir, Hn.
  - simpl. by rewrite is_dir_output_dir, Hn.
  - destruct (cwd_writable fs); [done|].
    simpl. by rewrite is_dir_output_dir, Hn.
Qed.

Lemma Path_mkdir_is_dir fs w :
  lookup_dir fs output_dir = Some w →
  Path_mkdir output_dir true fs = (inr (), fs).
Proof.
  intros Hd. rewrite Path_mkdir_cases. unfold mkdir_blocked.
  unfold lookup_dir in Hd. simpl in Hd.
  by destruct (nodes fs !! output_dir) as [[w'|w' c]|].
Qed.

Lemma Path_mkdir_absent fs :
  nodes fs !! output_dir = None → cwd_writable fs = true →
  Path_mkdir output_dir true fs = (inr (), set_node output_dir (Dir true) fs).
Proof.
  intros Hn Hw. rewrite Path_mkdir_cases. unfold mkdir_blocked.
  by rewrite Hn, Hw.
Qed.

(** Once [mkdir] went through, the output directory is a directory. *)
Lemma Path_mkdir_ok fs fs' :
  Path_mkdir output_dir true fs = (inr (), fs') →
  is_Some (lookup_dir fs' output_dir)
  ∧ cwd_writable fs' = cwd_writable fs
  ∧ ∀ q, q ≠ output_dir → nodes fs' !! q = nodes fs !! q.
Proof.
  rewrite Path_mkdir_cases. unfold mkdir_blocked, lookup_dir.
  destruct (nodes fs !! output_dir) as [[w|w c]|] eqn:Hn; simpl; try done.
  - intros [= <-]. rewrite Hn. by split; [eexists|].
  - destruct (cwd_writable fs) eqn:Hw; [|done]. intros [= <-]. simpl.
    rewrite lookup_insert_eq. split; [by eexists|]. split; [done|].
    intros q Hq. by rewrite lookup_insert_ne.
Qed.

(** ** What a run leaves on disk *)

Lemma plan_names : plan.*1 = fixture_names.
Proof. vm_compute. reflexivity. Qed.

Lemma fixture_names_NoDup : NoDup fixture_names.
Proof. apply (bool_decide_unpack _). vm_compute. exact I. Qed.

Lemma fixture_names_in_output_dir p :
  p ∈ fixture_names → p ≠ "" ∧ p ≠ output_dir ∧ dirname p = output_dir.
Proof.
  revert p. apply Forall_forall. apply (bool_decide_unpack _). vm_compute. exact I.
Qed.

Lemma elem_of_dtype_list d : d ∈ dtype_list.
Proof. destruct d; unfold dtype_list; set_solver. Qed.

Lemma plan_of_in_plan d pb : pb ∈ plan_of d → pb ∈ plan.
Proof.
  intros Hin. unfold plan. apply list_elem_of_bind.
  exists d. split; [done|apply elem_of_dtype_list].
Qed.

Lemma plan_lookup p b : (p, b) ∈ plan → (list_to_map plan : gmap string (list byte)) !! p = Some b.
Proof.
  apply elem_of_list_to_map_1. rewrite plan_names. apply fixture_names_NoDup.
Qed.

Lemma plan_lookup_None p :
  p ∉ fixture_names → (list_to_map plan : gmap string (list byte)) !! p = None.
Proof. rewrite <- plan_names. apply not_elem_of_list_to_map_1. Qed.

Lemma main_ok_inv fs fs' :
  main fs = (inr (), fs') →
  ∃ fs1, Path_mkdir output_dir true fs = (inr (), fs1)
         ∧ write_all plan fs1 = (inr (), fs').
Proof.
  rewrite main_eq.
  destruct (Path_mkdir output_dir true fs) as [[e|[]] fs1]; [done|]. eauto.
Qed.

(** After a run that went through, every file of the plan is on disk
    with its content. *)
Lemma main_ok_file fs fs' p b :
  main fs = (inr (), fs') → (p, b) ∈ plan →
  nodes fs' !! p = Some (File true b).
Proof.
  intros (fs1 & _ & Hw)%main_ok_inv Hin.
  apply write_all_lookup in Hw as [_ Hq];
    [|rewrite plan_names; apply fixture_names_NoDup].
  by rewrite Hq, (plan_lookup _ _ Hin).
Qed.

(** ... and every other path is as before, but for the directory. *)
Lemma main_ok_other fs fs' q :
  main fs = (inr (), fs') → q ∉ fixture_names → q ≠ output_dir →
  nodes fs' !! q = nodes fs !! q.
Proof.
  intros (fs1 & Hm & Hw)%main_ok_inv Hq Hne.
  apply write_all_lookup in Hw as [_ Hl];
    [|rewrite plan_names; apply fixture_names_NoDup].
  rewrite Hl, (plan_lookup_None _ Hq).
  by apply Path_mkdir_ok in Hm as (_ & _ & ->).
Qed.

Lemma lookup_dir_output_dir fs :
  lookup_dir fs output_dir =
  match nodes fs !! output_dir with Some (Dir w) => Some w | _ => None end.
Proof. reflexivity. Qed.

Lemma output_dir_not_fixture : output_dir ∉ fixture_names.
Proof. apply (bool_decide_unpack _). vm_compute. exact I. Qed.

Lemma main_ok_dir fs fs' :
  main fs = (inr (), fs') → is_Some (lookup_dir fs' output_dir).
Proof.
  intros Hrun. destruct (main_ok_inv _ _ Hrun) as (fs1 & Hm & Hw).
  apply Path_mkdir_ok in Hm as (Hd & _ & _).
  rewrite lookup_dir_output_dir in Hd |- *.
  apply write_all_lookup in Hw as [_ Hl];
    [|rewrite plan_names; apply fixture_names_NoDup].
  by rewrite Hl, (plan_lookup_None _ output_dir_not_fixture).
Qed.

(** A run on the empty working directory goes through. *)
Lemma main_empty_fs : main empty_fs = (inr (), (main empty_fs).2).
Proof. vm_compute. reflexivity. Qed.

(** ** Scalars: storing and reading back *)





(** The integers [0 .. 7] are stored without loss in every type. *)
Lemma load_store_small d z : 0 ≤ z < 8 → load d (store_Z d z) = scalar_of_Z d z.
Proof.
  intros Hz.
  assert (z = 0 ∨ z = 1 ∨ z = 2 ∨ z = 3 ∨ z = 4 ∨ z = 5 ∨ z = 6 ∨ z = 7)
    as Hcases by lia.
  destruct d; (repeat destruct Hcases as [->|Hcases]); subst; by vm_compute.
Qed.

(** ** The arrays *)

Lemma fixture_dims_not_2 d dims o : dims ≠ 2%nat → fixture d dims o = np.arange 8 d.
Proof.
  intros Hd. unfold fixture, build_data. by destruct (Nat.eqb_spec dims 2).
Qed.

Lemma flat_arange_8 d :
  np.flat (np.arange 8 d) = scalar_of_Z d <$> [0; 1; 2; 3; 4; 5; 6; 7].
Proof. by destruct d; vm_compute. Qed.

Lemma flat_fixture_perm d dims o :
  np.flat (fixture d dims o) ≡ₚ np.flat (np.arange 8 d).
Proof.
  destruct (decide (dims = 2%nat)) as [->|Hd].
  - destruct d, o; apply (bool_decide_unpack _); vm_compute; exact I.
  - by rewrite fixture_dims_not_2.
Qed.

(** C8: [np.arange(8, dtype=d)] is the one-dimensional array of type [d]
    whose elements are, in order, the integers 0 to 7; a complex element
    has a zero imaginary part; each of these integers, stored as [d] and
    read back, is the integer itself. *)
Theorem arange_8_values (d : dtype) :
  np.dtype_of (np.arange 8 d) = d
  ∧ np.shape (np.arange 8 d) = [8%nat]
  ∧ np.flat (np.arange 8 d) = scalar_of_Z d <$> [0; 1; 2; 3; 4; 5; 6; 7]
  ∧ (∀ k : nat, (k < 8)%nat →
       np.getitem (np.arange 8 d) [k] = Some (scalar_of_Z d (Z.of_nat k)))
  ∧ (∀ k : nat, (k < 8)%nat → kind d = "c"%char →
       np.getitem (np.arange 8 d) [k]
       = Some (ComplexVal (RFinite (Qmake (Z.of_nat k) 1)) (RFinite (Qmake 0 1))))
  ∧ (∀ z : Z, 0 ≤ z < 8 → load d (store_Z d z) = scalar_of_Z d z).
Proof.
  split; [done|]. split; [done|]. split; [apply flat_arange_8|].
  assert (∀ k : nat, (k < 8)%nat →
    np.getitem (np.arange 8 d) [k] = Some (scalar_of_Z d (Z.of_nat k))) as Hget.
  { intros k Hk.
    do 8 (destruct k as [|k]; [by destruct d; vm_compute|]). lia. }
  split; [exact Hget|]. split; [|apply load_store_small].
  intros k Hk Hc. rewrite (Hget k Hk). unfold scalar_of_Z. by rewrite Hc.
Qed.

(** C4: with [dims = 1] the array is, for either [order], the base
    array itself: of length 8, with the elements 0 to 7 in order. *)
Theorem dims_1_ignores_order (d : dtype) (o : np.order) :
  build_data d 1 o = Some (np.arange 8 d)
  ∧ build_data d 1 np.C = build_data d 1 np.F
  ∧ np.shape (np.arange 8 d) = [8%nat]
  ∧ np.flat (np.arange 8 d) = scalar_of_Z d <$> [0; 1; 2; 3; 4; 5; 6; 7].
Proof.
  split; [done|]. split; [done|]. split; [done|]. apply flat_arange_8.
Qed.

(** C3: with [dims = 2] the array has shape (4, 2); under order C the
    integer [k] sits at position [(k // 2, k % 2)], so the rows are
    [0,1], [2,3], [4,5], [6,7]; under order F it sits at position
    [(k % 4, k // 4)], so the columns are [0,1,2,3] and [4,5,6,7]. *)
Theorem dims_2_positions (d : dtype) :
  ∃ ac af,
    build_data d 2 np.C = Some ac ∧ build_data d 2 np.F = Some af
    ∧ np.shape ac = [4; 2]%nat ∧ np.shape af = [4; 2]%nat
    ∧ (∀ k : nat, (k < 8)%nat →
         np.getitem ac [k / 2; k mod 2]%nat = Some (scalar_of_Z d (Z.of_nat k)))
    ∧ (∀ k : nat, (k < 8)%nat →
         np.getitem af [k mod 4; k / 4]%nat = Some (scalar_of_Z d (Z.of_nat k)))
    ∧ rows ac = map (map (scalar_of_Z d)) [[0; 1]; [2; 3]; [4; 5]; [6; 7]]
    ∧ rows (np.transpose af) = map (map (scalar_of_Z d)) [[0; 1; 2; 3]; [4; 5; 6; 7]]
    ∧ rows af = map (map (scalar_of_Z d)) [[0; 4]; [1; 5]; [2; 6]; [3; 7]].
Proof.
  exists (fixture d 2 np.C), (fixture d 2 np.F).
  split; [apply build_data_fixture|]. split; [apply build_data_fixture|].
  split; [done|]. split; [done|].
  split; [|split; [|split; [|split]]].
  - intros k Hk. do 8 (destruct k as [|k]; [by destruct d; vm_compute|]). lia.
  - intros k Hk. do 8 (destruct k as [|k]; [by destruct d; vm_compute|]). lia.
  - by destruct d; vm_compute.
  - by destruct d; vm_compute.
  - by destruct d; vm_compute.
Qed.

(** C5: whatever the type, [dims] and [order], the values in the array
    are exactly the integers 0 to 7; the array built with [reshape] holds
    the elements of the base array, rearranged. *)
Theorem values_are_0_to_7 (d : dtype) (dims : nat) (o : np.order) :
  ∃ a, build_data d dims o = Some a
    ∧ (∀ v, v ∈ np.flat a ↔ ∃ z : Z, 0 ≤ z < 8 ∧ v = scalar_of_Z d z)
    ∧ np.flat a ≡ₚ np.flat (np.arange 8 d)
    ∧ ∃ a', np.reshape (np.arange 8 d) [4; 2]%nat o = Some a'
            ∧ np.flat a' ≡ₚ np.flat (np.arange 8 d).
Proof.
  exists (fixture d dims o). split; [apply build_data_fixture|].
  split; [|split; [apply flat_fixture_perm|]].
  - intros v. rewrite (flat_fixture_perm d dims o), flat_arange_8.
    rewrite list_elem_of_fmap. split.
    + intros (z & -> & Hz). exists z. split; [|done].
      set_unfold. lia.
    + intros (z & Hz & ->). exists z. split; [done|].
      set_unfold. lia.
  - exists (fixture d 2 o). split; [apply (build_data_fixture d 2 o)|].
    apply flat_fixture_perm.
Qed.

(** ** The files *)

Lemma save_fixture d k a fs :
  np.save (fixture_name d k) a fs = write_file (fixture_name d k) (np.write_array a) fs.
Proof. unfold np.save. by rewrite fixture_name_npy. Qed.

Lemma elem_of_fixture_names p :
  p ∈ fixture_names ↔ ∃ d k, (1 ≤ k ≤ 4)%nat ∧ p = fixture_name d k.
Proof.
  unfold fixture_names. rewrite list_elem_of_bind. split.
  - intros (d & Hp & _). exists d.
    change (p ∈ [fixture_name d 1; fixture_name d 2; fixture_name d 3; fixture_name d 4]) in Hp.
    set_unfold. destruct Hp as [->|[->|[->|[->|[]]]]]; eexists; (split; [|done]); lia.
  - intros (d & k & Hk & ->). exists d. split; [|apply elem_of_dtype_list].
    change (fixture_name d k
            ∈ [fixture_name d 1; fixture_name d 2; fixture_name d 3; fixture_name d 4]).
    assert (k = 1 ∨ k = 2 ∨ k = 3 ∨ k = 4)%nat as [->|[->|[->| ->]]] by lia;
      rewrite !elem_of_cons; tauto.
Qed.

(** The header and the data of the four arrays of a type. *)
Lemma write_array_fixture d dims o :
  np.write_array (fixture d dims o) =
  np.wrap_header_guess_version
    (np.header_text (dtype_descr d,
                     bool_decide (dims = 2%nat ∧ o = np.F),
                     if bool_decide (dims = 2%nat) then [4; 2]%nat else [8%nat]))
  ++ (k ← seq 0 8; store_Z d (Z.of_nat k)).
Proof.
  destruct (decide (dims = 2%nat)) as [->|Hd].
  - by destruct d, o; vm_compute.
  - rewrite fixture_dims_not_2 by done.
    rewrite (bool_decide_eq_false_2 (dims = 2%nat)) by done.
    rewrite bool_decide_eq_false_2 by (by intros [? _]).
    by destruct d; vm_compute.
Qed.

(** C6: the code of a type is its kind letter followed by its item size
    in decimal; the four files of a type are saved, in this order, as
    [{code}_1.npy] for (dims 1, C), [{code}_2.npy] for (dims 1, F),
    [{code}_3.npy] for (dims 2, C) and [{code}_4.npy] for (dims 2, F),
    the count starting again at 1 for every type. *)
Theorem codes_and_file_names (d : dtype) (fs : filesystem) :
  dtype_str d = String (kind d) (str_nat (itemsize d))
  ∧ kind d ∈ ["i"; "u"; "f"; "c"]%char
  ∧ dtype_str int32 = "i4" ∧ dtype_str complex128 = "c16"
  ∧ (∀ k, fixture_name d k = "data/" +:+ dtype_str d +:+ "_" +:+ str_nat k +:+ ".npy")
  ∧ (∃ a1 a2 a3 a4,
       build_data d 1 np.C = Some a1 ∧ build_data d 1 np.F = Some a2
       ∧ build_data d 2 np.C = Some a3 ∧ build_data d 2 np.F = Some a4
       ∧ per_dtype d () fs =
         (np.save (fixture_name d 1) a1;; np.save (fixture_name d 2) a2;;
          np.save (fixture_name d 3) a3;; np.save (fixture_name d 4) a4) fs)
  ∧ main fs = (Path_mkdir output_dir true;; for_in dtype_list per_dtype ()) fs.
Proof.
  split; [done|]. split; [destruct d; set_solver|]. split; [done|]. split; [done|].
  split; [done|]. split; [|done].
  exists (fixture d 1 np.C), (fixture d 1 np.F), (fixture d 2 np.C), (fixture d 2 np.F).
  rewrite !build_data_fixture. do 4 (split; [done|]).
  rewrite per_dtype_eq. unfold plan_of, write_all.
  rewrite !bind_eq, !save_fixture.
  destruct (write_file _ _ fs) as [[e|[]] fs1]; [done|].
  rewrite !bind_eq, !save_fixture.
  destruct (write_file _ _ fs1) as [[e|[]] fs2]; [done|].
  rewrite !bind_eq, !save_fixture.
  destruct (write_file _ _ fs2) as [[e|[]] fs3]; [done|].
  rewrite !bind_eq, !save_fixture.
  by destruct (write_file _ _ fs3) as [[e|[]] fs4].
Qed.

(** C1, as the code has it: after a run on an output directory that was
    empty or absent, the files in it are exactly [{code}_1.npy],
    [{code}_2.npy], [{code}_3.npy] and [{code}_4.npy] for each of the
    twelve codes; [{code}_1.npy] stays, nothing overwrites it. *)
Theorem files_after_run (fs fs' : filesystem) :
  (∀ p, dirname p = output_dir → nodes fs !! p = None) →
  main fs = (inr (), fs') →
  ∀ p, dirname p = output_dir →
    (is_Some (nodes fs' !! p) ↔ ∃ d k, (1 ≤ k ≤ 4)%nat ∧ p = fixture_name d k).
Proof.
  intros Hempty Hrun p Hp. rewrite <- elem_of_fixture_names.
  destruct (decide (p ∈ fixture_names)) as [Hin|Hnin].
  - split; [done|]. intros _.
    assert (∃ b, (p, b) ∈ plan) as [b Hb].
    { rewrite <- plan_names in Hin. apply list_elem_of_fmap in Hin as ([q b] & -> & Hin).
      by exists b. }
    rewrite (main_ok_file _ _ _ _ Hrun Hb). by eexists.
  - assert (p ≠ output_dir) as Hne by (by intros ->).
    rewrite (main_ok_other _ _ _ Hrun Hnin Hne), (Hempty p Hp).
    split; [by intros [? ?]|done].
Qed.

Lemma files_after_run_witness :
  (∀ p, dirname p = output_dir → nodes empty_fs !! p = None)
  ∧ main empty_fs = (inr (), (main empty_fs).2)
  ∧ (is_Some (nodes (main empty_fs).2 !! "data/i4_1.npy")
     ↔ ∃ d k, (1 ≤ k ≤ 4)%nat ∧ "data/i4_1.npy" = fixture_name d k).
Proof.
  split; [intros p _; apply lookup_empty|]. split; [apply main_empty_fs|].
  apply (files_after_run empty_fs).
  - intros p _. apply lookup_empty.
  - apply main_empty_fs.
  - reflexivity.
Defined.

(** C1 as the spec states it fails: after a run on the empty working
    directory the file [i4_1.npy] is there, so the files of the code
    [i4] are not exactly those numbered 2, 3 and 4. *)
Lemma index_1_persists :
  ¬ (∀ k, is_Some (nodes (main empty_fs).2 !! fixture_name int32 k)
          ↔ k ∈ [2; 3; 4]%nat).
Proof.
  intros H. specialize (H 1%nat). destruct H as [H _].
  assert (is_Some (nodes (main empty_fs).2 !! fixture_name int32 1)) as Hs.
  { vm_compute. by eexists. }
  apply H in Hs. rewrite !elem_of_cons, elem_of_nil in Hs.
  by destruct Hs as [?|[?|[?|[]]]].
Qed.

(** The four files of a type after a run. *)
Lemma main_ok_files fs fs' d :
  main fs = (inr (), fs') →
  nodes fs' !! fixture_name d 1 = Some (File true (np.write_array (fixture d 1 np.C)))
  ∧ nodes fs' !! fixture_name d 2 = Some (File true (np.write_array (fixture d 1 np.F)))
  ∧ nodes fs' !! fixture_name d 3 = Some (File true (np.write_array (fixture d 2 np.C)))
  ∧ nodes fs' !! fixture_name d 4 = Some (File true (np.write_array (fixture d 2 np.F))).
Proof.
  intros Hrun.
  repeat split; apply (main_ok_file _ _ _ _ Hrun), (plan_of_in_plan d);
    unfold plan_of; set_solver.
Qed.

(** C2: after a run the 48 files, four for each type and all of
    different names, are on disk; the two files of a type written with
    [dims = 1], numbered 1 and 2, have the same bytes. *)
Theorem all_files_persist (fs fs' : filesystem) :
  main fs = (inr (), fs') →
  length fixture_names = 48%nat
  ∧ NoDup fixture_names
  ∧ (∀ d k, (1 ≤ k ≤ 4)%nat →
       fixture_name d k ∈ fixture_names
       ∧ ∃ b, nodes fs' !! fixture_name d k = Some (File true b))
  ∧ (∀ d, fixture_name d 1 ≠ fixture_name d 2
          ∧ ∃ b, nodes fs' !! fixture_name d 1 = Some (File true b)
                 ∧ nodes fs' !! fixture_name d 2 = Some (File true b)).
Proof.
  intros Hrun. split; [done|]. split; [apply fixture_names_NoDup|]. split.
  - intros d k Hk. split; [apply elem_of_fixture_names; eauto|].
    destruct (main_ok_files _ _ d Hrun) as (H1 & H2 & H3 & H4).
    assert (k = 1 ∨ k = 2 ∨ k = 3 ∨ k = 4)%nat as [->|[->|[->| ->]]] by lia; eauto.
  - intros d. split; [by destruct d|].
    destruct (main_ok_files _ _ d Hrun) as (H1 & H2 & _).
    exists (np.write_array (np.arange 8 d)). by split.
Qed.

Lemma all_files_persist_witness :
  main empty_fs = (inr (), (main empty_fs).2)
  ∧ ∃ b, nodes (main empty_fs).2 !! fixture_name float32 1 = Some (File true b)
         ∧ nodes (main empty_fs).2 !! fixture_name float32 2 = Some (File true b).
Proof.
  split; [apply main_empty_fs|].
  apply (all_files_persist empty_fs _ main_empty_fs).
Defined.

(** C7: a second run, on what the first one left, goes through and
    leaves every file as it is; and the content of the files does not
    depend on the filesystem the run starts from. *)
Theorem second_run_changes_nothing (fs fs' : filesystem) :
  main fs = (inr (), fs') →
  main fs' = (inr (), fs')
  ∧ ∀ fs0 fs0' p, main fs0 = (inr (), fs0') → p ∈ fixture_names →
      nodes fs0' !! p = nodes fs' !! p.
Proof.
  intros Hrun. split.
  - rewrite main_eq.
    destruct (main_ok_dir _ _ Hrun) as [w Hd].
    rewrite (Path_mkdir_is_dir _ _ Hd).
    apply write_all_same. intros p b Hin.
    assert (p ∈ fixture_names) as Hp.
    { rewrite <- plan_names. apply list_elem_of_fmap. by exists (p, b). }
    destruct (fixture_names_in_output_dir p Hp) as (Hne & _ & ->).
    split; [done|]. split; [by eexists|].
    apply (main_ok_file _ _ _ _ Hrun Hin).
  - intros fs0 fs0' p Hrun0 Hp.
    rewrite <- plan_names in Hp. apply list_elem_of_fmap in Hp as ([q b] & -> & Hin).
    simpl. by rewrite (main_ok_file _ _ _ _ Hrun Hin), (main_ok_file _ _ _ _ Hrun0 Hin).
Qed.

Lemma second_run_changes_nothing_witness :
  main empty_fs = (inr (), (main empty_fs).2)
  ∧ main (main empty_fs).2 = (inr (), (main empty_fs).2).
Proof.
  split; [apply main_empty_fs|].
  apply (second_run_changes_nothing empty_fs _ main_empty_fs).
Defined.

(** C10: the four files of a type end with the same bytes, the integers
    0 to 7 stored one after the other as little-endian elements of the
    type; before them comes the header, which says the shape and the
    order: (8,) and C for the files 1 and 2, which are equal byte for
    byte, (4, 2) and C for the file 3, (4, 2) and Fortran for the
    file 4. *)
Theorem same_data_bytes (fs fs' : filesystem) (d : dtype) :
  main fs = (inr (), fs') →
  ∃ h1 h2 h3 h4 : list byte,
    nodes fs' !! fixture_name d 1 = Some (File true (h1 ++ (k ← seq 0 8; store_Z d (Z.of_nat k))))
    ∧ nodes fs' !! fixture_name d 2 = Some (File true (h2 ++ (k ← seq 0 8; store_Z d (Z.of_nat k))))
    ∧ nodes fs' !! fixture_name d 3 = Some (File true (h3 ++ (k ← seq 0 8; store_Z d (Z.of_nat k))))
    ∧ nodes fs' !! fixture_name d 4 = Some (File true (h4 ++ (k ← seq 0 8; store_Z d (Z.of_nat k))))
    ∧ h1 = np.wrap_header_guess_version (np.header_text (dtype_descr d, false, [8%nat]))
    ∧ h2 = h1
    ∧ h3 = np.wrap_header_guess_version (np.header_text (dtype_descr d, false, [4; 2]%nat))
    ∧ h4 = np.wrap_header_guess_version (np.header_text (dtype_descr d, true, [4; 2]%nat))
    ∧ (∀ dims o, ∃ a, build_data d dims o = Some a
         ∧ np.payload a = k ← seq 0 8; store_Z d (Z.of_nat k)).
Proof.
  intros Hrun.
  exists (np.wrap_header_guess_version (np.header_text (dtype_descr d, false, [8%nat]))),
         (np.wrap_header_guess_version (np.header_text (dtype_descr d, false, [8%nat]))),
         (np.wrap_header_guess_version (np.header_text (dtype_descr d, false, [4; 2]%nat))),
         (np.wrap_header_guess_version (np.header_text (dtype_descr d, true, [4; 2]%nat))).
  split; [|split; [|split; [|split]]].
  - rewrite (proj1 (main_ok_files _ _ d Hrun)).
    by rewrite write_array_fixture.
  - rewrite (proj1 (proj2 (main_ok_files _ _ d Hrun))).
    by rewrite write_array_fixture.
  - rewrite (proj1 (proj2 (proj2 (main_ok_files _ _ d Hrun)))).
    by rewrite write_array_fixture.
  - rewrite (proj2 (proj2 (proj2 (main_ok_files _ _ d Hrun)))).
    by rewrite write_array_fixture.
  - do 4 (split; [done|]).
    intros dims o. exists (fixture d dims o). split; [apply build_data_fixture|].
    destruct (decide (dims = 2%nat)) as [->|Hd].
    + by destruct d, o; vm_compute.
    + rewrite fixture_dims_not_2 by done. by destruct d; vm_compute.
Qed.

Lemma same_data_bytes_witness :
  main empty_fs = (inr (), (main empty_fs).2)
  ∧ ∃ h3 h4 : list byte,
      nodes (main empty_fs).2 !! "data/i2_3.npy"
      = Some (File true (h3 ++ (k ← seq 0 8; store_Z int16 (Z.of_nat k))))
      ∧ nodes (main empty_fs).2 !! "data/i2_4.npy"
        = Some (File true (h4 ++ (k ← seq 0 8; store_Z int16 (Z.of_nat k)))).
Proof.
  split; [apply main_empty_fs|].
  destruct (same_data_bytes empty_fs _ int16 main_empty_fs)
    as (h1 & h2 & h3 & h4 & _ & _ & H3 & H4 & _).
  exists h3, h4. split; [exact H3|exact H4].
Defined.

(** ** Failures *)

Lemma Path_mkdir_err fs fs' e :
  Path_mkdir output_dir true fs = (inl e, fs') →
  fs' = fs
  ∧ ((∃ w c, nodes fs !! output_dir = Some (File w c) ∧ e = FileExistsError)
     ∨ (nodes fs !! output_dir = None ∧ cwd_writable fs = false ∧ e = PermissionError)).
Proof.
  rewrite Path_mkdir_cases. unfold mkdir_blocked.
  destruct (nodes fs !! output_dir) as [[w|w c]|]; [done| |].
  - intros [= <- <-]. split; [done|]. left. by exists w, c.
  - destruct (cwd_writable fs); [done|].
    intros [= <- <-]. split; [done|]. by right.
Qed.

Lemma write_all_prefix_files l1 pb l2 fs fs' q c :
  NoDup (l1 ++ pb :: l2).*1 → write_all l1 fs = (inr (), fs') →
  (q, c) ∈ l1 → nodes fs' !! q = Some (File true c).
Proof.
  intros Hnd Hw Hin. rewrite fmap_app in Hnd. apply NoDup_app in Hnd as (Hnd & _ & _).
  apply write_all_lookup in Hw as [_ Hl]; [|done].
  by rewrite Hl, (elem_of_list_to_map_1 _ _ _ Hnd Hin).
Qed.

(** C9: [mkdir] goes through when the directory is there already, and
    creates it when it is not and the working directory is writable; it
    raises only when the name is taken by a regular file or the working
    directory is read-only, and the run then ends with that exception,
    the filesystem untouched. When a later write raises, the run ends
    with that exception and the files written before it stay. *)
Theorem mkdir_exist_ok (fs : filesystem) :
  (∀ w, nodes fs !! output_dir = Some (Dir w) →
     Path_mkdir output_dir true fs = (inr (), fs))
  ∧ (nodes fs !! output_dir = None → cwd_writable fs = true →
       Path_mkdir output_dir true fs = (inr (), set_node output_dir (Dir true) fs))
  ∧ (∀ e fs', Path_mkdir output_dir true fs = (inl e, fs') →
       fs' = fs
       ∧ ((∃ w c, nodes fs !! output_dir = Some (File w c) ∧ e = FileExistsError)
          ∨ (nodes fs !! output_dir = None ∧ cwd_writable fs = false
             ∧ e = PermissionError))
       ∧ main fs = (inl e, fs))
  ∧ (∀ e fs', main fs = (inl e, fs') →
       Path_mkdir output_dir true fs = (inl e, fs')
       ∨ ∃ fs1 l1 p b l2,
           Path_mkdir output_dir true fs = (inr (), fs1)
           ∧ plan = l1 ++ (p, b) :: l2
           ∧ write_all l1 fs1 = (inr (), fs')
           ∧ write_file p b fs' = (inl e, fs')
           ∧ ∀ q c, (q, c) ∈ l1 → nodes fs' !! q = Some (File true c)).
Proof.
  split; [|split; [|split]].
  - intros w Hn. apply (Path_mkdir_is_dir _ w).
    by rewrite lookup_dir_output_dir, Hn.
  - apply Path_mkdir_absent.
  - intros e fs' Hm. destruct (Path_mkdir_err _ _ _ Hm) as [-> Hwhy].
    split; [done|]. split; [done|]. by rewrite main_eq, Hm.
  - intros e fs' Hrun. rewrite main_eq in Hrun.
    destruct (Path_mkdir output_dir true fs) as [[e'|[]] fs1] eqn:Hm.
    + left. by injection Hrun as -> ->.
    + right. destruct (write_all_fails _ _ _ _ Hrun) as (l1 & p & b & l2 & Hl & H1 & H2).
      exists fs1, l1, p, b, l2. do 4 (split; [done|]).
      intros q c Hin. apply (write_all_prefix_files l1 (p, b) l2 fs1); [|done..].
      rewrite <- Hl, plan_names. apply fixture_names_NoDup.
Qed.

(** Without [exist_ok] a directory that is there already is an error. *)
Example mkdir_without_exist_ok fs w :
  nodes fs !! output_dir = Some (Dir w) →
  Path_mkdir output_dir false fs = (inl FileExistsError, fs).
Proof.
  intros Hn. unfold Path_mkdir. by rewrite os_mkdir_output_dir, Hn.
Qed.

(** A regular file named [data] stops the run before anything is
    written. *)
Example run_with_file_named_data :
  main {| cwd_writable := true; nodes := {[ "data" := File true [] ]} |}
  = (inl FileExistsError,
     {| cwd_writable := true; nodes := {[ "data" := File true [] ]} |}).
Proof. by vm_compute. Qed.

(** So does a read-only working directory. *)
Example run_in_read_only_directory :
  main {| cwd_writable := false; nodes := ∅ |}
  = (inl PermissionError, {| cwd_writable := false; nodes := ∅ |}).
Proof. by vm_compute. Qed.

(** A directory in the place of the second file stops the run there;
    the first file stays. *)
Example run_stopped_at_second_file :
  ∃ fs', main {| cwd_writable := true;
                 nodes := {[ "data" := Dir true; "data/i1_2.npy" := Dir true ]} |}
         = (inl IsADirectoryError, fs')
    ∧ is_Some (nodes fs' !! "data/i1_1.npy")
    ∧ nodes fs' !! "data/i1_3.npy" = None.
Proof. eexists. split; [by vm_compute|]. split; [by eexists|]. by vm_compute. Qed.

(** ** What a run may touch *)





(** ** When a run goes through *)







(** A run on the empty working directory goes through; one on a
    read-only output directory without files does not. *)
Example run_can_succeed_examples :
  run_can_succeed empty_fs = true
  ∧ run_can_succeed {| cwd_writable := true; nodes := {[ "data" := Dir false ]} |} = false.
Proof. by vm_compute. Qed.

(** ** The exceptions of a run *)



(** ** The layout of a file *)

Lemma length_list_byte_of_string s :
  length (list_byte_of_string s) = String.length s.
Proof.
  unfold list_byte_of_string. rewrite length_map.
  induction s as [|c s IH]; simpl; [done|]. by rewrite IH.
Qed.

Lemma length_spaces n : String.length (np.spaces n) = n.
Proof.
  unfold np.spaces. induction n as [|n IH]; [done|].
  destruct n as [|n]; [done|].
  change (String.length (String " " (String.concat "" (replicate (S n) " "))) = S (S n)).
  cbn [String.length]. by f_equal.
Qed.

Lemma length_le_bytes n z : length (le_bytes n z) = n.
Proof. revert z. induction n as [|n IH]; intros z; simpl; [done|]. by rewrite IH. Qed.

(** The wrapped header ends on a multiple of [ARRAY_ALIGN] bytes. *)
Lemma length_wrap_header header major lenbytes :
  (length (np.wrap_header header major lenbytes) mod 64 = 0)%nat
  ∧ (length (np.wrap_header header major lenbytes)
     > np.MAGIC_LEN + lenbytes + String.length header)%nat.
Proof.
  unfold np.wrap_header, np.magic. 
  rewrite !length_app, !length_list_byte_of_string, length_le_bytes, length_spaces.
  change (length np.MAGIC_PREFIX) with 6%nat. change np.MAGIC_LEN with 8%nat.
  change np.ARRAY_ALIGN with 64%nat. simpl length.
  set (n := (8 + lenbytes + (String.length header + 1))%nat).
  pose proof (Nat.mod_upper_bound n 64 ltac:(done)) as Hlt.
  pose proof (Nat.div_mod_eq n 64) as Hn.
  split; [|lia].
  replace (6 + 2 + (lenbytes + (String.length header + (64 - n mod 64 + 1))))%nat
    with ((1 + n / 64) * 64)%nat by lia.
  apply Nat.Div0.mod_mul.
Qed.

(** X4: whatever the array, the header [np.save] writes takes a
    multiple of 64 bytes, so the data start on a 64-byte boundary; for
    the arrays of the script it takes 128 bytes, so a file is 128 bytes
    and 8 elements long. *)
Theorem header_alignment (a : np.ndarray) :
  (length (np.header_bytes a) mod 64 = 0)%nat
  ∧ (0 < length (np.header_bytes a))%nat
  ∧ (∀ d dims o, ∃ a', build_data d dims o = Some a'
       ∧ length (np.header_bytes a') = 128%nat
       ∧ length (np.write_array a') = (128 + 8 * itemsize d)%nat).
Proof.
  unfold np.header_bytes at 1 2, np.wrap_header_guess_version.
  split; [|split].
  - destruct (_ <? _); apply length_wrap_header.
  - destruct (_ <? _).
    + pose proof (proj2 (length_wrap_header
        (np.header_text (np.header_data_from_array_1_0 a)) 1 2)). lia.
    + pose proof (proj2 (length_wrap_header
        (np.header_text (np.header_data_from_array_1_0 a)) 2 4)). lia.
  - intros d dims o. exists (fixture d dims o). split; [apply build_data_fixture|].
    destruct (decide (dims = 2%nat)) as [->|Hd].
    + by destruct d, o; vm_compute.
    + rewrite fixture_dims_not_2 by done. by destruct d; vm_compute.
Qed.

(** ** Integers in an element *)


